(** * AI Noter backend (index.js): request pipeline and route handlers

    A shallow embedding of [src/index.js].  The program is an Express
    application: a rate limiter and a JSON body parser in front of two POST
    routes that relay to an external transcription and chat-completion service.

    - JavaScript strings are sequences of UTF-16 code units, so [length] is
      the [.length] the handler compares against 20000.
    - JSON values received from the upstream services are [jsval]s; property
      reads, optional chaining, [.trim()] and [||] are written out, with the
      [TypeError] the engine raises on a bad access.
    - A handler is a function from its inputs to the trace of effects it
      performs (upstream calls, file-system operations, log lines, the HTTP
      response), in program order.  The upstream services, the file system
      and the process environment are the fields of [environment].
    - [helmet()] and [cors()] only add response headers to requests with the
      methods modelled here; responses carry a status and a body, no headers,
      so these two stages do not appear. *)

From Stdlib Require Import ZArith NArith QArith String Ascii List Lia.
From stdpp Require Import base decidable list option gmap strings.

Open Scope Z_scope.
Open Scope list_scope.

(** ** JavaScript strings *)

Abbreviation jsstring := (list N).

(** An ASCII literal as code units. *)
Definition js (s : string) : jsstring :=
  map N_of_ascii (list_ascii_of_string s).

(** ECMAScript WhiteSpace and LineTerminator code points, the characters
    [String.prototype.trim] strips. *)
Definition is_js_space (c : N) : bool :=
  ((9 <=? c) && (c <=? 13) || (c =? 32) || (c =? 160) || (c =? 5760)
   || (8192 <=? c) && (c <=? 8202) || (c =? 8232) || (c =? 8233)
   || (c =? 8239) || (c =? 8287) || (c =? 12288) || (c =? 65279))%N.

Fixpoint trim_start (s : jsstring) : jsstring :=
  match s with
  | c :: s' => if is_js_space c then trim_start s' else s
  | [] => []
  end.

Definition trim_end (s : jsstring) : jsstring := rev (trim_start (rev s)).

Definition trim (s : jsstring) : jsstring := trim_end (trim_start s).

(** [String.prototype.toLowerCase] on the characters a header can hold (code
    units up to 255): the capitals A-Z and the capitals of Latin-1 move 32
    up, everything else stays. *)
Definition lower_unit (c : N) : N :=
  if ((65 <=? c) && (c <=? 90) || (192 <=? c) && (c <=? 214)
      || (216 <=? c) && (c <=? 222))%N
  then (c + 32)%N
  else c.

Definition to_lower (s : jsstring) : jsstring := map lower_unit s.

(** ** JavaScript values and completions *)

#[local] Unset Elimination Schemes.

Inductive jsval :=
| VUndefined
| VNull
| VBool (b : bool)
| VNum (n : Z)
| VStr (s : jsstring)
| VArr (items : list jsval)
| VObj (fields : list (jsstring * jsval)).

#[local] Set Elimination Schemes.

(** What the handlers can catch: a [TypeError] raised by the engine, or the
    rejection of an upstream call, whose [response] property is
    [err_response] ([VUndefined] when the error has none). *)
Inductive jserror :=
| TypeError
| UpstreamFailure (err_response : jsval) (err_message : jsstring).

Inductive completion (A : Type) :=
| Normal (a : A)
| Throw (e : jserror).
Arguments Normal {A} a.
Arguments Throw {A} e.

Definition bind {A B} (c : completion A) (k : A -> completion B) : completion B :=
  match c with
  | Normal a => k a
  | Throw e => Throw e
  end.

Notation "'let*' x := c1 'in' c2" := (bind c1 (fun x => c2))
  (at level 10, x name, c1 at level 100, c2 at level 200).

(** ToBoolean. *)
Definition truthy (v : jsval) : bool :=
  match v with
  | VUndefined | VNull => false
  | VBool b => b
  | VNum n => negb (n =? 0)
  | VStr s => match s with [] => false | _ => true end
  | VArr _ | VObj _ => true
  end.

Definition nullish (v : jsval) : bool :=
  match v with
  | VUndefined | VNull => true
  | _ => false
  end.

(** Own property [k] of an object given by its properties, each key once. *)
Fixpoint lookup_field (k : jsstring) (fields : list (jsstring * jsval)) : jsval :=
  match fields with
  | [] => VUndefined
  | (k', v) :: rest => if bool_decide (k = k') then v else lookup_field k rest
  end.

(** Reading property [k] of a value that is neither [null] nor [undefined],
    for the names the program reads ([text], [choices], [message], [content],
    [data]): none of them lives on a prototype, so the read finds an own
    property of an object or nothing. *)
Definition read_prop (v : jsval) (k : jsstring) : jsval :=
  match v with
  | VObj fields => lookup_field k fields
  | _ => VUndefined
  end.

(** [v.k]. *)
Definition get_prop (v : jsval) (k : jsstring) : completion jsval :=
  if nullish v then Throw TypeError else Normal (read_prop v k).

(** [v?.k]. *)
Definition get_prop_opt (v : jsval) (k : jsstring) : jsval :=
  if nullish v then VUndefined else read_prop v k.

(** [v[0]]. *)
Definition get_first (v : jsval) : completion jsval :=
  match v with
  | VUndefined | VNull => Throw TypeError
  | VArr items => Normal (match items with x :: _ => x | [] => VUndefined end)
  | VStr s => Normal (match s with c :: _ => VStr [c] | [] => VUndefined end)
  | VObj fields => Normal (lookup_field (js "0") fields)
  | _ => Normal VUndefined
  end.

(** [v?.trim()]: only strings have a callable [trim]. *)
Definition trim_opt (v : jsval) : completion jsval :=
  match v with
  | VUndefined | VNull => Normal VUndefined
  | VStr s => Normal (VStr (trim s))
  | _ => Throw TypeError
  end.

(** [v || d]. *)
Definition or_else (v d : jsval) : jsval := if truthy v then v else d.

(** ** Responses, effects and the environment *)

Inductive body :=
| BodyJson (v : jsval)        (* res.json(v), res.send(object) *)
| BodyText (s : jsstring)     (* res.send(string) *)
| BodyErrorPage.              (* page written by the framework's own error handler *)

Record response := { status : Z; payload : body }.

Definition json_reply (code : Z) (key : jsstring) (value : jsval) : response :=
  {| status := code; payload := BodyJson (VObj [(key, value)]) |}.

(** [res.status(code).json({ error: msg })]. *)
Definition error_reply (code : Z) (msg : jsstring) : response :=
  json_reply code (js "error") (VStr msg).

(** [req.file] as multer's disk storage fills it in. *)
Record uploaded_file := {
  file_path : jsstring;
  file_originalname : jsstring;
  file_mimetype : jsstring;
  file_size : Z
}.

(** The multipart body posted to the transcription service. *)
Record transcription_request := {
  tr_url : jsstring;
  tr_authorization : jsstring;
  tr_file : jsstring;           (* path streamed by fs.createReadStream *)
  tr_filename : jsstring;
  tr_content_type : jsstring;
  tr_model : jsstring
}.

Record chat_message := { role : jsstring; content : jsstring }.

(** The argument of [groq.chat.completions.create]; the temperature is the
    decimal literal of the source, as a rational. *)
Record completion_request := {
  cr_model : jsstring;
  cr_messages : list chat_message;
  cr_temperature : Q
}.

Inductive outcome :=
| Resolved (v : jsval)
| Rejected (e : jserror).

Inductive log_level := LogInfo | LogWarn | LogError.

Inductive log_arg :=
| LogValue (v : jsval)
| LogErrorObject (e : jserror).

Inductive event :=
| ELog (lvl : log_level) (label : jsstring) (args : list log_arg)
| EStoreWrite (path : jsstring) (bytes : Z)    (* upload bytes written under uploads/ *)
| EReadStream (path : jsstring)                (* fs.createReadStream *)
| ETranscriptionCall (r : transcription_request)
| ECompletionCall (r : completion_request)
| EUnlink (path : jsstring)                    (* fs.unlink: one deletion attempt,
                                                  by the handler or by multer *)
| ERespond (r : response).

(** Everything outside the process.  The upstream services answer a call with
    a resolved value or a rejection: for the transcription service the value
    is the [data] of the axios response, for the completion service the object
    the SDK returns.  [unlink_error] is the error, if any, that [fs.unlink]
    hands to its callback; [api_key] is [process.env.GROQ_API_KEY];
    [written_before_abort] is the number of bytes of an upload that multer
    has written when the size limit makes it abort (decided inside the
    package). *)
Record environment := {
  transcription_api : transcription_request -> outcome;
  completion_api : completion_request -> outcome;
  unlink_error : jsstring -> option jserror;
  api_key : option jsstring;
  upload_path : jsstring;  (* file name multer generates under uploads/ *)
  written_before_abort : Z
}.

(** ** POST /transcribe (index.js, lines 59-98) *)

Definition transcription_url : jsstring :=
  js "https://api.groq.com/openai/v1/audio/transcriptions".

(** The template literal for the Authorization header. *)
Definition bearer (key : option jsstring) : jsstring :=
  js "Bearer " ++ match key with Some k => k | None => js "undefined" end.

Definition no_file_message : jsstring :=
  js "No se envi" ++ [243%N] ++ js " ning" ++ [250%N] ++ js "n archivo".

Definition no_text_recognized : jsstring := js "Sin texto reconocido".

Definition transcribe_error_message : jsstring := js "Error al transcribir el audio".

Definition transcription_request_of (env : environment) (f : uploaded_file)
  : transcription_request :=
  {| tr_url := transcription_url;
     tr_authorization := bearer (api_key env);
     tr_file := file_path f;
     tr_filename := match file_originalname f with
                    | [] => js "audio.m4a"
                    | name => name
                    end;
     tr_content_type := file_mimetype f;
     tr_model := js "whisper-large-v3" |}.

(** [response.data.text?.trim() || "Sin texto reconocido"]. *)
Definition transcript (data : jsval) : completion jsval :=
  let* text := get_prop data (js "text") in
  let* trimmed := trim_opt text in
  Normal (or_else trimmed (VStr no_text_recognized)).

(** [error.response?.data || error], the value written to the log. *)
Definition error_detail (e : jserror) : log_arg :=
  match e with
  | TypeError => LogErrorObject e
  | UpstreamFailure resp _ =>
      let d := get_prop_opt resp (js "data") in
      if truthy d then LogValue d else LogErrorObject e
  end.

(** The catch branch. *)
Definition transcribe_failed (e : jserror) : list event :=
  [ ELog LogError ([10060%N] ++ js " Error transcribiendo:") [error_detail e];
    ERespond (error_reply 500 transcribe_error_message) ].

Definition transcribe_handler (env : environment) (file : option uploaded_file)
  : list event :=
  match file with
  | None => [ ERespond (error_reply 400 no_file_message) ]
  | Some f =>
      let r := transcription_request_of env f in
      ELog LogInfo ([55357%N; 56548%N] ++ js " Transcribiendo:")
           [LogValue (VStr (file_originalname f))]
      :: EReadStream (file_path f)
      :: ETranscriptionCall r
      :: match transcription_api env r with
         | Rejected e => transcribe_failed e
         | Resolved data =>
             match transcript data with
             | Throw e => transcribe_failed e
             | Normal t =>
                 [ ELog LogInfo ([9989%N] ++ js " Transcripci" ++ [243%N] ++ js "n completa.") [];
                   EUnlink (file_path f);
                   ERespond (json_reply 200 (js "text") t) ]
                 ++ match unlink_error env (file_path f) with
                    | Some err =>
                        [ ELog LogWarn
                            ([9888%N; 65039%N] ++ js " No se pudo eliminar archivo temporal:")
                            [LogErrorObject err] ]
                    | None => []
                    end
             end
         end
  end.

(** ** POST /summarize (index.js, lines 101-130) *)

(** The [text] property the handler destructures from the parsed body.  The
    embedding covers the request shape [{text: string}]: the property is a
    string, or [null], or missing. *)
Inductive text_field :=
| TextMissing
| TextNull
| TextString (s : jsstring).

Definition missing_text_message : jsstring := js "Falta texto".

Definition text_too_long_message : jsstring := js "Texto demasiado largo".

Definition summarize_error_message : jsstring := js "Error al resumir el texto".

Definition no_summary : jsstring := js "No se pudo generar el resumen.".

Definition max_text_length : Z := 20000.

(** The template literal of the user message. *)
Definition prompt (text : jsstring) : jsstring :=
  js "Resum" ++ [237%N] ++ js " este texto en espa" ++ [241%N]
  ++ js "ol, en no m" ++ [225%N] ++ js "s de 2 oraciones:" ++ [10%N; 10%N] ++ text.

Definition completion_request_of (text : jsstring) : completion_request :=
  {| cr_model := js "llama-3.1-8b-instant";
     cr_messages := [ {| role := js "user"; content := prompt text |} ];
     cr_temperature := 0.2%Q |}.

(** [summaryResponse.choices[0]?.message?.content?.trim() || "No se pudo
    generar el resumen."], in two steps: the chain up to [content], then the
    trimming and the default. *)
Definition first_choice_content (resp : jsval) : completion jsval :=
  let* choices := get_prop resp (js "choices") in
  let* first := get_first choices in
  let message := get_prop_opt first (js "message") in
  Normal (get_prop_opt message (js "content")).

Definition summary (resp : jsval) : completion jsval :=
  let* content := first_choice_content resp in
  let* trimmed := trim_opt content in
  Normal (or_else trimmed (VStr no_summary)).

Definition summarize_failed (e : jserror) : list event :=
  [ ELog LogError ([10060%N] ++ js " Error resumiendo:") [error_detail e];
    ERespond (error_reply 500 summarize_error_message) ].

Definition summarize_handler (env : environment) (text : text_field) : list event :=
  match text with
  | TextMissing | TextNull => [ ERespond (error_reply 400 missing_text_message) ]
  | TextString s =>
      if negb (truthy (VStr s)) then
        [ ERespond (error_reply 400 missing_text_message) ]
      else if max_text_length <? Z.of_nat (length s) then
        [ ERespond (error_reply 400 text_too_long_message) ]
      else
        let r := completion_request_of s in
        ECompletionCall r
        :: match completion_api env r with
           | Rejected e => summarize_failed e
           | Resolved resp =>
               match summary resp with
               | Throw e => summarize_failed e
               | Normal sm =>
                   [ ELog LogInfo ([55357%N; 56516%N] ++ js " Resumen generado correctamente.") [];
                     ERespond (json_reply 200 (js "summary") sm) ]
               end
           end
  end.

(** ** Middleware (index.js, lines 21-52) *)

(** *** Rate limiter: [rateLimit({ windowMs, max, message })] *)

Definition windowMs : Z := 1 * 60 * 1000.

(** The [max] option. *)
Definition limiter_max : Z := 15.

(** The [message] option. *)
Definition limiter_message : jsval :=
  VObj [ (js "error",
          VStr (js "Demasiadas peticiones, intent" ++ [225%N] ++ js " m"
                ++ [225%N] ++ js "s tarde.")) ].

Definition rate_limited_reply : response :=
  {| status := 429; payload := BodyJson limiter_message |}.

(** One client's RateWindow: request count and start of the current window,
    in milliseconds. *)
Record rate_window := { hits : Z; window_start : Z }.

(** Modelled from the spec: the counting step of the express-rate-limit
    package, which index.js configures but which is not part of the
    repository.  Section 4.3: a mapping from client address to a count and a
    window-start timestamp; on each request, if the client's window has
    expired, reset the count to 0 and restart the window; increment the count;
    reject if the count exceeds the quota.  The window length and the quota
    are the options of the source. *)
Definition limiter_step (now : Z) (ip : string) (tbl : gmap string rate_window)
  : bool * gmap string rate_window :=
  let current :=
    match tbl !! ip with
    | Some w =>
        if window_start w + windowMs <=? now
        then {| hits := 0; window_start := now |}
        else w
    | None => {| hits := 0; window_start := now |}
    end in
  let bumped := {| hits := hits current + 1; window_start := window_start current |} in
  (hits bumped <=? limiter_max, <[ip := bumped]> tbl).

(** *** Errors handed to [next] *)

Inductive middleware_error :=
| FilterError (message : jsstring)   (* the Error built by fileFilter *)
| LimitFileSize                      (* multer: LIMIT_FILE_SIZE *)
| PayloadTooLarge.                   (* body parser: request entity too large *)

(** index.js registers no error-handling middleware, so an error passed to
    [next] is answered by Express's built-in handler: the status is the
    error's own [status] when it carries one (the body parser's 413) and 500
    otherwise, and the body is a page generated by the framework, not a JSON
    document.  (The framework's own log line is not part of the trace.) *)
Definition default_error_reply (e : middleware_error) : response :=
  {| status := match e with PayloadTooLarge => 413 | _ => 500 end;
     payload := BodyErrorPage |}.

(** *** JSON body parser: [express.json({ limit: "2mb" })] *)

(** The [limit] option in bytes; the parser reads the unit [mb] as
    1024 * 1024. *)
Definition json_limit : Z := 2 * 1024 * 1024.

(** *** Upload: [multer({ dest, limits, fileFilter })] *)

(** The [audio] part of a multipart request: the file name the parser reports
    for it (empty when the part names none), the media type written in its
    Content-Type header, and the number of bytes that follow. *)
Record file_part := {
  part_filename : jsstring;
  part_mimetype : jsstring;
  part_size : Z
}.

Definition allowed : list jsstring :=
  [ js "audio/m4a"; js "audio/mp3"; js "audio/wav" ].

(** [limits.fileSize]. *)
Definition fileSize : Z := 25 * 1024 * 1024.

(** [None] is [cb(null, true)]; [Some e] is [cb(e)]. *)
Definition fileFilter (mimetype : jsstring) : option middleware_error :=
  if negb (bool_decide (mimetype ∈ allowed))
  then Some (FilterError (js "Formato de audio no permitido"))
  else None.

Inductive upload_result :=
| NoFile                              (* no [audio] part: req.file stays undefined *)
| Stored (f : uploaded_file)
| UploadFailed (e : middleware_error).

(** [upload.single("audio")] with multer's disk storage.  The package is not
    part of the repository; its steps, in order: a part without a file name
    is skipped, so [req.file] stays undefined; the parser reports the media
    type in lower case, and that is the [file.mimetype] the filter sees,
    before the storage engine is started; an accepted part is streamed to a
    generated file under [uploads/]; the size limit aborts the upload while
    it is being written, and multer then deletes what it wrote with
    [fs.unlink]. *)
Definition upload_single (env : environment) (audio : option file_part)
  : list event * upload_result :=
  match audio with
  | None => ([], NoFile)
  | Some p =>
      match part_filename p with
      | [] => ([], NoFile)
      | _ :: _ =>
          match fileFilter (to_lower (part_mimetype p)) with
          | Some e => ([], UploadFailed e)
          | None =>
              if fileSize <? part_size p then
                ([ EStoreWrite (upload_path env) (written_before_abort env);
                   EUnlink (upload_path env) ],
                 UploadFailed LimitFileSize)
              else
                ([ EStoreWrite (upload_path env) (part_size p) ],
                 Stored {| file_path := upload_path env;
                           file_originalname := part_filename p;
                           file_mimetype := to_lower (part_mimetype p);
                           file_size := part_size p |})
          end
      end
  end.

(** ** The application *)

(** The requests the embedding covers: a multipart POST /transcribe with or
    without an [audio] part, a POST /summarize whose JSON body parses to an
    object, and GET /.  Requests the framework answers on its own (a body
    that is not JSON, a path or method without a route) are not among them. *)
Inductive request_kind :=
| PostTranscribe (audio : option file_part)             (* multipart/form-data *)
| PostSummarize (body_bytes : Z) (text : text_field)    (* application/json *)
| GetHealth.

(** A request: client address, arrival time in milliseconds, and content.
    [body_bytes] is the size of the JSON body as received. *)
Record request := {
  req_ip : string;
  req_time : Z;
  req_kind : request_kind
}.

Definition health_message : jsstring :=
  [9989%N] ++ js " Servidor AI Noter activo y seguro.".

(** The stages behind the limiter, in the order they are mounted. *)
Definition route (env : environment) (k : request_kind) : list event :=
  match k with
  | PostSummarize body_bytes text =>
      if json_limit <? body_bytes
      then [ ERespond (default_error_reply PayloadTooLarge) ]
      else summarize_handler env text
  | PostTranscribe audio =>
      let '(stored, result) := upload_single env audio in
      stored ++ match result with
                | UploadFailed e => [ ERespond (default_error_reply e) ]
                | NoFile => transcribe_handler env None
                | Stored f => transcribe_handler env (Some f)
                end
  | GetHealth => [ ERespond {| status := 200; payload := BodyText health_message |} ]
  end.

Definition app_handle (env : environment) (tbl : gmap string rate_window) (req : request)
  : gmap string rate_window * list event :=
  let '(passed, tbl') := limiter_step (req_time req) (req_ip req) tbl in
  (tbl', if passed then route env (req_kind req) else [ ERespond rate_limited_reply ]).

(** The table after a sequence of requests, each served in its own
    environment. *)
Fixpoint serve (tbl : gmap string rate_window) (reqs : list (environment * request))
  : gmap string rate_window :=
  match reqs with
  | [] => tbl
  | (env, req) :: rest => serve (fst (app_handle env tbl req)) rest
  end.

(** The traces of the same sequence, one per request. *)
Fixpoint serve_traces (tbl : gmap string rate_window) (reqs : list (environment * request))
  : list (list event) :=
  match reqs with
  | [] => []
  | (env, req) :: rest =>
      snd (app_handle env tbl req) :: serve_traces (fst (app_handle env tbl req)) rest
  end.

(** Every entry of the table counts at least one request, as in any table
    built by serving requests. *)
Definition counted (tbl : gmap string rate_window) : Prop :=
  forall ip w, tbl !! ip = Some w -> 1 <= hits w.

(** ** Reading traces *)

Definition responses (t : list event) : list response :=
  omap (fun e => match e with ERespond r => Some r | _ => None end) t.

Definition is_upstream_call (e : event) : bool :=
  match e with
  | ETranscriptionCall _ | ECompletionCall _ => true
  | _ => false
  end.

Definition upstream_calls (t : list event) : list event :=
  List.filter is_upstream_call t.

Definition is_unlink (path : jsstring) (e : event) : bool :=
  match e with
  | EUnlink p => bool_decide (p = path)
  | _ => false
  end.

(** Number of deletion attempts on [path] in a trace. *)
Definition unlink_attempts (path : jsstring) (t : list event) : nat :=
  length (List.filter (is_unlink path) t).

(** The part of a trace that follows the transcription call. *)
Fixpoint after_transcription_call (t : list event) : list event :=
  match t with
  | [] => []
  | ETranscriptionCall _ :: rest => rest
  | _ :: rest => after_transcription_call rest
  end.

(** A response of the shape [{ error: <string> }]. *)
Definition is_error_json (r : response) : Prop :=
  exists msg, payload r = BodyJson (VObj [ (js "error", VStr msg) ]).

(** Requests from [ip] in a sequence. *)
Definition count_from (ip : string) (reqs : list (environment * request)) : Z :=
  Z.of_nat (length (List.filter (fun er => bool_decide (req_ip (snd er) = ip)) reqs)).

(** ** Sample inputs *)

Definition timeout_error : jserror :=
  UpstreamFailure VUndefined (js "connect ETIMEDOUT").

Definition sample_environment (transcription completion : outcome) : environment :=
  {| transcription_api := fun _ => transcription;
     completion_api := fun _ => completion;
     unlink_error := fun _ => None;
     api_key := Some (js "gsk_test");
     upload_path := js "uploads/3f9c2a";
     written_before_abort := 26214401 |}.

Definition sample_file : uploaded_file :=
  {| file_path := js "uploads/3f9c2a";
     file_originalname := js "nota.m4a";
     file_mimetype := js "audio/m4a";
     file_size := 4096 |}.

Definition blank : jsstring := js "   ".

(** A chat completion whose first choice has message content [c]. *)
Definition completion_with (c : jsval) : jsval :=
  VObj [ (js "choices", VArr [ VObj [ (js "message", VObj [ (js "content", c) ]) ] ]) ].

Definition video_part : file_part :=
  {| part_filename := js "clip.mp4";
     part_mimetype := js "video/mp4";
     part_size := 2048 |}.



(** A part whose media type is written in capitals. *)
Definition capitals_part : file_part :=
  {| part_filename := js "nota.mp3";
     part_mimetype := js "AUDIO/MP3";
     part_size := 4096 |}.

(** Three million times the letter a. *)
Definition huge_text : jsstring := repeat 97%N (Z.to_nat 3000000).

Definition small_part : file_part :=
  {| part_filename := js "nota.m4a";
     part_mimetype := js "audio/m4a";
     part_size := 4096 |}.

(** [n] health checks from one address, one second apart, starting at time
    [start]. *)
Definition burst (start : Z) (n : nat) : list (environment * request) :=
  map (fun i => (sample_environment (Rejected timeout_error) (Rejected timeout_error),
                 {| req_ip := "203.0.113.7";
                    req_time := start + 1000 * Z.of_nat i;
                    req_kind := GetHealth |}))
      (seq 0 n).

(** 20001 times the letter a. *)
Definition long_text : jsstring := repeat 97%N (Z.to_nat 20001).

(** ** Further readers and inputs *)

(** [const PORT = process.env.PORT || 5000] (index.js, line 137); the
    environment variable is a string when it is set. *)
Definition listen_port (port : option jsstring) : jsval :=
  or_else (match port with Some p => VStr p | None => VUndefined end) (VNum 5000).

(** The same environment with another outcome for [fs.unlink]. *)
Definition with_unlink_error (env : environment) (u : jsstring -> option jserror)
  : environment :=
  {| transcription_api := transcription_api env;
     completion_api := completion_api env;
     unlink_error := u;
     api_key := api_key env;
     upload_path := upload_path env;
     written_before_abort := written_before_abort env |}.

Definition is_error_log (e : event) : bool :=
  match e with
  | ELog LogError _ _ => true
  | _ => false
  end.

(** The [console.error] lines of a trace. *)
Definition error_logs (t : list event) : list event := List.filter is_error_log t.

Definition is_warning (e : event) : bool :=
  match e with
  | ELog LogWarn _ _ => true
  | _ => false
  end.

(** A trace without its [console.warn] lines. *)
Definition drop_warnings (t : list event) : list event :=
  List.filter (fun e => negb (is_warning e)) t.

(** The string is empty or begins with a character that [trim] keeps. *)
Definition starts_clean (s : jsstring) : Prop :=
  match s with
  | [] => True
  | c :: _ => is_js_space c = false
  end.

(** A non-empty string without white space at either end. *)
Definition tidy (s : jsstring) : Prop :=
  s <> [] /\ starts_clean s /\ starts_clean (rev s).


(** An upstream answer that is neither a string nor missing. *)
Definition not_text (v : jsval) : bool :=
  match v with
  | VBool _ | VNum _ | VArr _ | VObj _ => true
  | _ => false
  end.


(** A POST /summarize request. *)
Definition summarize_request (ip : string) (now body_bytes : Z) (text : text_field)
  : request :=
  {| req_ip := ip; req_time := now; req_kind := PostSummarize body_bytes text |}.

(** ** Tactics *)

(** Closes a goal about concrete inputs by evaluation. *)
Ltac by_evaluation := vm_compute; first [reflexivity | discriminate | exact I].

(** The three ways through the transcription handler once a file is there. *)
Ltac transcribe_paths env f :=
  unfold transcribe_handler;
  destruct (transcription_api env (transcription_request_of env f)) as [?data|?e] eqn:?Hcall;
  [ destruct (transcript data) as [?t|?e] eqn:?Hread;
    [ destruct (unlink_error env (file_path f)) as [?err|] eqn:?Hunlink | ] | ].

(** The ways through the summary handler. *)
Ltac summarize_paths env text :=
  unfold summarize_handler;
  destruct text as [| |[|?c ?s]]; cbn [truthy negb];
  [ | | | destruct (max_text_length <? Z.of_nat (length (c :: s))) eqn:?Hlen;
          [ | destruct (completion_api env (completion_request_of (c :: s)))
                as [?resp|?e] eqn:?Hcall;
              [ destruct (summary resp) as [?sm|?e] eqn:?Hread | ] ] ].

(** Splits a hypothesis [In x [a; b; ...]] into its cases. *)
Ltac in_cases H :=
  simpl in H;
  repeat (destruct H as [H|H]; [try discriminate H|]);
  try (exfalso; exact H).

(** * Properties *)

(** ** Trimming *)

Lemma trim_start_nil (s : jsstring) :
  trim_start s = [] <-> forallb is_js_space s = true.
Proof.
  induction s as [|c s IH]; simpl; [tauto|].
  destruct (is_js_space c); simpl; [exact IH|].
  split; discriminate.
Qed.

Lemma forallb_rev {A} (f : A -> bool) (l : list A) :
  forallb f (rev l) = forallb f l.
Proof.
  induction l as [|x l IH]; simpl; [reflexivity|].
  rewrite forallb_app, IH. simpl. rewrite andb_true_r. apply andb_comm.
Qed.

Lemma trim_start_blank_prefix (s : jsstring) :
  forallb is_js_space (trim_start s) = forallb is_js_space s.
Proof.
  induction s as [|c s IH]; simpl; [reflexivity|].
  destruct (is_js_space c) eqn:E; simpl; [exact IH|].
  rewrite E. reflexivity.
Qed.

(** A string trims to the empty string exactly when it holds nothing but
    white space (in particular when it is empty). *)
Lemma trim_nil (s : jsstring) :
  trim s = [] <-> forallb is_js_space s = true.
Proof.
  unfold trim, trim_end. split.
  - intros H. apply (f_equal (@rev N)) in H. rewrite rev_involutive in H.
    simpl in H. apply trim_start_nil in H.
    rewrite forallb_rev, trim_start_blank_prefix in H. exact H.
  - intros H. apply trim_start_nil in H. rewrite H. reflexivity.
Qed.

Lemma or_else_string (s d : jsstring) :
  or_else (VStr s) (VStr d) = VStr (match s with [] => d | _ => s end).
Proof. destruct s; reflexivity. Qed.

(** ** Traces *)


(** A request whose route makes no upstream call makes none behind the
    limiter either. *)
Lemma app_handle_no_calls env tbl req :
  upstream_calls (route env (req_kind req)) = [] ->
  upstream_calls (snd (app_handle env tbl req)) = [].
Proof.
  intros H. unfold app_handle.
  destruct (limiter_step _ _ _) as [[] tbl']; [exact H|reflexivity].
Qed.

(** ** POST /transcribe *)

Section Transcribe.

Variable env : environment.
Variable f : uploaded_file.

Lemma transcribe_handler_rejected e :
  transcription_api env (transcription_request_of env f) = Rejected e ->
  after_transcription_call (transcribe_handler env (Some f)) = transcribe_failed e.
Proof. intros H. unfold transcribe_handler. simpl. rewrite H. reflexivity. Qed.

Lemma transcribe_handler_resolved data :
  transcription_api env (transcription_request_of env f) = Resolved data ->
  after_transcription_call (transcribe_handler env (Some f)) =
    match transcript data with
    | Throw e => transcribe_failed e
    | Normal t =>
        [ ELog LogInfo ([9989%N] ++ js " Transcripci" ++ [243%N] ++ js "n completa.") [];
          EUnlink (file_path f);
          ERespond (json_reply 200 (js "text") t) ]
        ++ match unlink_error env (file_path f) with
           | Some err =>
               [ ELog LogWarn
                   ([9888%N; 65039%N] ++ js " No se pudo eliminar archivo temporal:")
                   [LogErrorObject err] ]
           | None => []
           end
    end.
Proof. intros H. unfold transcribe_handler. simpl. rewrite H. reflexivity. Qed.

(** Nothing is answered before the call. *)
Lemma responses_after_call :
  responses (transcribe_handler env (Some f)) =
  responses (after_transcription_call (transcribe_handler env (Some f))).
Proof. reflexivity. Qed.

(** On the success path the handler makes one deletion attempt, after the
    call. *)
Lemma transcribe_success_unlinks_once data t :
  transcription_api env (transcription_request_of env f) = Resolved data ->
  transcript data = Normal t ->
  unlink_attempts (file_path f)
    (after_transcription_call (transcribe_handler env (Some f))) = 1%nat.
Proof.
  intros H Ht. rewrite (transcribe_handler_resolved _ H), Ht.
  unfold unlink_attempts. simpl.
  rewrite bool_decide_eq_true_2 by reflexivity.
  destruct (unlink_error env (file_path f)); reflexivity.
Qed.

(** C1, at the failing input: when the transcription call is rejected, the
    handler answers from its catch branch and makes no deletion attempt on
    the temporary file, neither after the call nor anywhere in the trace. *)
Theorem transcribe_rejected_call_never_unlinks e :
  transcription_api env (transcription_request_of env f) = Rejected e ->
  unlink_attempts (file_path f) (transcribe_handler env (Some f)) = 0%nat
  /\ unlink_attempts (file_path f)
       (after_transcription_call (transcribe_handler env (Some f))) = 0%nat
  /\ responses (transcribe_handler env (Some f))
     = [ error_reply 500 transcribe_error_message ].
Proof.
  intros H. rewrite responses_after_call, (transcribe_handler_rejected _ H).
  unfold transcribe_handler. simpl. rewrite H. repeat split.
Qed.

(** The reply of the handler once the call has resolved, by the value read
    from [response.data.text]. *)
Lemma transcribe_reply data t :
  transcription_api env (transcription_request_of env f) = Resolved data ->
  get_prop data (js "text") = Normal t ->
  responses (transcribe_handler env (Some f)) =
    match t with
    | VUndefined | VNull => [ json_reply 200 (js "text") (VStr no_text_recognized) ]
    | VStr s =>
        [ json_reply 200 (js "text")
            (VStr (match trim s with [] => no_text_recognized | kept => kept end)) ]
    | _ => [ error_reply 500 transcribe_error_message ]
    end.
Proof.
  intros H Ht.
  rewrite responses_after_call, (transcribe_handler_resolved _ H).
  unfold transcript. rewrite Ht. simpl.
  destruct t; simpl; try reflexivity;
    try (destruct (unlink_error env (file_path f)); reflexivity).
  rewrite or_else_string.
  destruct (unlink_error env (file_path f)); destruct (trim s); reflexivity.
Qed.

(** C5, as amended: after a successful upstream response the handler replies
    [{text: t}] where [t] is the trimmed [text] field when that is a string
    with something left after trimming, and the fixed string
    "Sin texto reconocido" when the field is missing, [null], or a string
    that trims to the empty string. *)
Theorem transcribe_text_or_fallback data t :
  transcription_api env (transcription_request_of env f) = Resolved data ->
  get_prop data (js "text") = Normal t ->
  (forall s, t = VStr s -> trim s <> [] ->
     responses (transcribe_handler env (Some f))
     = [ json_reply 200 (js "text") (VStr (trim s)) ])
  /\ (t = VUndefined \/ t = VNull \/ (exists s, t = VStr s /\ trim s = []) ->
      responses (transcribe_handler env (Some f))
      = [ json_reply 200 (js "text") (VStr (js "Sin texto reconocido")) ]).
Proof.
  intros H Ht. rewrite (transcribe_reply _ _ H Ht). split.
  - intros s -> Hs. destruct (trim s); [contradiction|reflexivity].
  - intros [-> | [-> | [s [-> Hs]]]]; try reflexivity.
    rewrite Hs. reflexivity.
Qed.

End Transcribe.

Lemma transcribe_rejected_call_never_unlinks_witness :
  unlink_attempts (file_path sample_file)
    (transcribe_handler (sample_environment (Rejected timeout_error) (Rejected timeout_error))
                        (Some sample_file)) = 0%nat.
Proof.
  apply (transcribe_rejected_call_never_unlinks
           (sample_environment (Rejected timeout_error) (Rejected timeout_error))
           sample_file timeout_error).
  reflexivity.
Defined.

Lemma transcribe_text_or_fallback_witness :
  responses (transcribe_handler
               (sample_environment
                  (Resolved (VObj [ (js "text", VStr (js " hello world ")) ]))
                  (Rejected timeout_error))
               (Some sample_file))
  = [ json_reply 200 (js "text") (VStr (js "hello world")) ].
Proof.
  apply (proj1 (transcribe_text_or_fallback
                  (sample_environment
                     (Resolved (VObj [ (js "text", VStr (js " hello world ")) ]))
                     (Rejected timeout_error))
                  sample_file
                  (VObj [ (js "text", VStr (js " hello world ")) ])
                  (VStr (js " hello world "))
                  eq_refl eq_refl)
               (js " hello world ") eq_refl).
  by_evaluation.
Defined.

(** C5 as stated fails: a [text] field of three spaces is present, its
    trimmed value is the empty string, and the reply carries the fallback
    instead; and when the field is missing the reply carries
    "Sin texto reconocido", not "no text recognized". *)
Lemma transcribe_blank_text_not_returned_trimmed :
  responses (transcribe_handler
               (sample_environment (Resolved (VObj [ (js "text", VStr blank) ]))
                                   (Rejected timeout_error))
               (Some sample_file))
  = [ json_reply 200 (js "text") (VStr no_text_recognized) ]
  /\ json_reply 200 (js "text") (VStr no_text_recognized)
     <> json_reply 200 (js "text") (VStr (trim blank))
  /\ responses (transcribe_handler
                  (sample_environment (Resolved (VObj [])) (Rejected timeout_error))
                  (Some sample_file))
     = [ json_reply 200 (js "text") (VStr no_text_recognized) ]
  /\ json_reply 200 (js "text") (VStr no_text_recognized)
     <> json_reply 200 (js "text") (VStr (js "no text recognized")).
Proof. repeat split; by_evaluation. Qed.

(** ** POST /summarize *)

Section Summarize.

Variable env : environment.

Lemma summarize_handler_accepts s :
  s <> [] ->
  Z.of_nat (length s) <= max_text_length ->
  summarize_handler env (TextString s) =
    ECompletionCall (completion_request_of s)
    :: match completion_api env (completion_request_of s) with
       | Rejected e => summarize_failed e
       | Resolved resp =>
           match summary resp with
           | Throw e => summarize_failed e
           | Normal sm =>
               [ ELog LogInfo
                   ([55357%N; 56516%N] ++ js " Resumen generado correctamente.") [];
                 ERespond (json_reply 200 (js "summary") sm) ]
           end
       end.
Proof.
  intros Hs Hlen. unfold summarize_handler.
  destruct s as [|c s]; [contradiction|].
  cbn [truthy negb].
  destruct (max_text_length <? Z.of_nat (length (c :: s))) eqn:E; [|reflexivity].
  apply Z.ltb_lt in E. lia.
Qed.

Lemma summarize_handler_too_long s :
  max_text_length < Z.of_nat (length s) ->
  summarize_handler env (TextString s)
  = [ ERespond (error_reply 400 text_too_long_message) ].
Proof.
  intros Hlen. unfold summarize_handler.
  destruct s as [|c s]; [simpl in Hlen; unfold max_text_length in Hlen; lia|].
  cbn [truthy negb].
  destruct (max_text_length <? Z.of_nat (length (c :: s))) eqn:E; [reflexivity|].
  apply Z.ltb_ge in E. lia.
Qed.

(** No upstream call for a text the handler refuses, whatever the stages in
    front of the handler do with the request. *)
Lemma refused_text_no_calls text tbl ip now body_bytes :
  upstream_calls (summarize_handler env text) = [] ->
  upstream_calls
    (snd (app_handle env tbl
            {| req_ip := ip; req_time := now;
               req_kind := PostSummarize body_bytes text |})) = [].
Proof.
  intros H. apply app_handle_no_calls. cbn [req_kind route].
  destruct (json_limit <? body_bytes); [reflexivity|exact H].
Qed.

(** What the stages in front of the handler do with a POST /summarize
    request, and what is left for the handler. *)
Lemma summarize_request_stages tbl ip now body_bytes text :
  snd (app_handle env tbl (summarize_request ip now body_bytes text))
  = if fst (limiter_step now ip tbl) then
      if json_limit <? body_bytes
      then [ ERespond (default_error_reply PayloadTooLarge) ]
      else summarize_handler env text
    else [ ERespond rate_limited_reply ].
Proof.
  unfold app_handle, summarize_request. cbn [req_time req_ip req_kind].
  destruct (limiter_step now ip tbl) as [[] tbl']; reflexivity.
Qed.

(** C4, as amended: a POST /summarize request whose text is longer than
    20000 code units never causes an upstream call, and it is answered with
    status 400 and [{error: "Texto demasiado largo"}] when it reaches the
    handler, that is, when the limiter lets it through and its body is within
    the 2 MiB limit; a body over the limit is answered with the framework's
    413 page, and a request over the quota with the limiter's 429. *)
Theorem summarize_rejects_long_text s :
  max_text_length < Z.of_nat (length s) ->
  forall tbl ip now body_bytes,
    upstream_calls
      (snd (app_handle env tbl (summarize_request ip now body_bytes (TextString s)))) = []
    /\ (fst (limiter_step now ip tbl) = true -> body_bytes <= 2 * 1024 * 1024 ->
        snd (app_handle env tbl (summarize_request ip now body_bytes (TextString s)))
        = [ ERespond (error_reply 400 text_too_long_message) ])
    /\ (fst (limiter_step now ip tbl) = true -> 2 * 1024 * 1024 < body_bytes ->
        snd (app_handle env tbl (summarize_request ip now body_bytes (TextString s)))
        = [ ERespond {| status := 413; payload := BodyErrorPage |} ])
    /\ (fst (limiter_step now ip tbl) = false ->
        snd (app_handle env tbl (summarize_request ip now body_bytes (TextString s)))
        = [ ERespond rate_limited_reply ]).
Proof.
  intros Hlen tbl ip now body_bytes. rewrite summarize_request_stages.
  rewrite (summarize_handler_too_long s Hlen).
  destruct (fst (limiter_step now ip tbl));
    destruct (Z.ltb_spec json_limit body_bytes) as [Hb|Hb]; unfold json_limit in Hb;
    repeat split; intros; try reflexivity; try discriminate; lia.
Qed.

(** C8, as amended: a POST /summarize request whose text is the empty string
    never causes an upstream call; the handler treats the empty string as it
    treats a missing or [null] text, and the request is answered with status
    400 and [{error: "Falta texto"}] when it reaches the handler (limiter
    passed, body within the 2 MiB limit); otherwise it gets the framework's
    413 page or the limiter's 429. *)
Theorem summarize_rejects_empty_text tbl ip now body_bytes :
  upstream_calls
    (snd (app_handle env tbl (summarize_request ip now body_bytes (TextString [])))) = []
  /\ summarize_handler env (TextString []) = summarize_handler env TextMissing
  /\ summarize_handler env (TextString []) = summarize_handler env TextNull
  /\ (fst (limiter_step now ip tbl) = true -> body_bytes <= 2 * 1024 * 1024 ->
      snd (app_handle env tbl (summarize_request ip now body_bytes (TextString [])))
      = [ ERespond (error_reply 400 missing_text_message) ])
  /\ (fst (limiter_step now ip tbl) = true -> 2 * 1024 * 1024 < body_bytes ->
      snd (app_handle env tbl (summarize_request ip now body_bytes (TextString [])))
      = [ ERespond {| status := 413; payload := BodyErrorPage |} ])
  /\ (fst (limiter_step now ip tbl) = false ->
      snd (app_handle env tbl (summarize_request ip now body_bytes (TextString [])))
      = [ ERespond rate_limited_reply ]).
Proof.
  rewrite summarize_request_stages.
  destruct (fst (limiter_step now ip tbl));
    destruct (Z.ltb_spec json_limit body_bytes) as [Hb|Hb]; unfold json_limit in Hb;
    repeat split; intros; try reflexivity; try discriminate; lia.
Qed.

Lemma summarize_reply s resp c :
  s <> [] ->
  Z.of_nat (length s) <= max_text_length ->
  completion_api env (completion_request_of s) = Resolved resp ->
  first_choice_content resp = Normal c ->
  responses (summarize_handler env (TextString s)) =
    match c with
    | VUndefined | VNull => [ json_reply 200 (js "summary") (VStr no_summary) ]
    | VStr k =>
        [ json_reply 200 (js "summary")
            (VStr (match trim k with [] => no_summary | kept => kept end)) ]
    | _ => [ error_reply 500 summarize_error_message ]
    end.
Proof.
  intros Hs Hlen H Hc. rewrite (summarize_handler_accepts _ Hs Hlen), H.
  unfold summary. rewrite Hc. simpl.
  destruct c as [| | | |k| |]; simpl; try reflexivity.
  rewrite or_else_string. destruct (trim k); reflexivity.
Qed.

Lemma prompt_wraps (s : jsstring) : prompt s = prompt [] ++ s.
Proof. unfold prompt. rewrite app_nil_r. repeat rewrite <- app_assoc. reflexivity. Qed.

(** C6, as amended: for a text the handler admits (non-empty, at most 20000
    code units) exactly one upstream call is made: a chat completion with
    model "llama-3.1-8b-instant", temperature 0.2 and a single user message
    whose content is the fixed instruction followed by the text.  When the
    call resolves and the first choice's message content is a string with
    something left after trimming, the reply is
    [{summary: <trimmed content>}]; when the first choice, its message or
    its content is missing or [null], or the content trims to the empty
    string, the reply carries the fixed string
    "No se pudo generar el resumen.". *)
Theorem summarize_request_and_reply s :
  s <> [] ->
  Z.of_nat (length s) <= max_text_length ->
  upstream_calls (summarize_handler env (TextString s))
  = [ ECompletionCall
        {| cr_model := js "llama-3.1-8b-instant";
           cr_messages := [ {| role := js "user"; content := prompt [] ++ s |} ];
           cr_temperature := 0.2%Q |} ]
  /\ forall resp c,
       completion_api env (completion_request_of s) = Resolved resp ->
       first_choice_content resp = Normal c ->
       (forall k, c = VStr k -> trim k <> [] ->
          responses (summarize_handler env (TextString s))
          = [ json_reply 200 (js "summary") (VStr (trim k)) ])
       /\ (c = VUndefined \/ c = VNull \/ (exists k, c = VStr k /\ trim k = []) ->
           responses (summarize_handler env (TextString s))
           = [ json_reply 200 (js "summary")
                 (VStr (js "No se pudo generar el resumen.")) ]).
Proof.
  intros Hs Hlen. split.
  - rewrite (summarize_handler_accepts _ Hs Hlen), <- prompt_wraps.
    destruct (completion_api env (completion_request_of s)) as [resp|e]; [|reflexivity].
    destruct (summary resp); reflexivity.
  - intros resp c H Hc. rewrite (summarize_reply _ _ _ Hs Hlen H Hc). split.
    + intros k -> Hk. destruct (trim k); [contradiction|reflexivity].
    + intros [-> | [-> | [k [-> Hk]]]]; try reflexivity.
      rewrite Hk. reflexivity.
Qed.

End Summarize.

Lemma summarize_rejects_long_text_witness :
  snd (app_handle (sample_environment (Rejected timeout_error) (Rejected timeout_error))
         ∅ (summarize_request "203.0.113.7" 0 20012 (TextString long_text)))
  = [ ERespond (error_reply 400 text_too_long_message) ].
Proof.
  refine (proj1 (proj2 (summarize_rejects_long_text
                          (sample_environment (Rejected timeout_error) (Rejected timeout_error))
                          long_text _ ∅ "203.0.113.7" 0 20012)) _ _).
  - unfold long_text. rewrite repeat_length. unfold max_text_length. lia.
  - by_evaluation.
  - lia.
Defined.

Lemma summarize_rejects_empty_text_witness :
  snd (app_handle (sample_environment (Rejected timeout_error) (Rejected timeout_error))
         ∅ (summarize_request "203.0.113.7" 0 11 (TextString [])))
  = [ ERespond (error_reply 400 missing_text_message) ].
Proof.
  refine (proj1 (proj2 (proj2 (proj2 (summarize_rejects_empty_text
                          (sample_environment (Rejected timeout_error) (Rejected timeout_error))
                          ∅ "203.0.113.7" 0 11)))) _ _).
  - by_evaluation.
  - lia.
Defined.

(** C4 as stated fails: a text of three million letters is longer than
    20000 code units, but its body is over the 2 MiB limit, so the body parser
    answers with the framework's 413 page and not with a 400 [{error}]; and
    the sixteenth request of a minute with a long text gets the limiter's 429,
    not a 400. *)
Lemma long_text_not_always_400 :
  max_text_length < Z.of_nat (length huge_text)
  /\ snd (app_handle (sample_environment (Rejected timeout_error) (Rejected timeout_error))
            ∅ (summarize_request "203.0.113.7" 0 3000011 (TextString huge_text)))
     = [ ERespond {| status := 413; payload := BodyErrorPage |} ]
  /\ ~ is_error_json {| status := 413; payload := BodyErrorPage |}
  /\ snd (app_handle (sample_environment (Rejected timeout_error) (Rejected timeout_error))
            (serve ∅ (burst 0 15))
            (summarize_request "203.0.113.7" 15000 20012 (TextString long_text)))
     = [ ERespond rate_limited_reply ]
  /\ status rate_limited_reply <> 400.
Proof.
  split; [unfold huge_text; rewrite repeat_length; unfold max_text_length; lia|].
  split; [reflexivity|]. split; [intros [msg H]; discriminate H|].
  split; by_evaluation.
Qed.

(** C8 as stated fails: a body of three million bytes whose text is the
    empty string is over the 2 MiB limit and gets the framework's 413 page,
    not the 400 missing-text error; and the sixteenth request of a minute with
    an empty text gets the limiter's 429. *)
Lemma empty_text_not_always_400 :
  snd (app_handle (sample_environment (Rejected timeout_error) (Rejected timeout_error))
         ∅ (summarize_request "203.0.113.7" 0 3000000 (TextString [])))
  = [ ERespond {| status := 413; payload := BodyErrorPage |} ]
  /\ ~ is_error_json {| status := 413; payload := BodyErrorPage |}
  /\ snd (app_handle (sample_environment (Rejected timeout_error) (Rejected timeout_error))
            (serve ∅ (burst 0 15))
            (summarize_request "203.0.113.7" 15000 11 (TextString [])))
     = [ ERespond rate_limited_reply ]
  /\ status rate_limited_reply <> 400.
Proof.
  split; [reflexivity|]. split; [intros [msg H]; discriminate H|].
  split; by_evaluation.
Qed.

Lemma summarize_request_and_reply_witness :
  responses (summarize_handler
               (sample_environment (Rejected timeout_error)
                  (Resolved (completion_with (VStr (js " Resumen breve. ")))))
               (TextString (js "texto")))
  = [ json_reply 200 (js "summary") (VStr (js "Resumen breve.")) ].
Proof.
  refine (proj1 (proj2 (summarize_request_and_reply
                   (sample_environment (Rejected timeout_error)
                      (Resolved (completion_with (VStr (js " Resumen breve. ")))))
                   (js "texto") _ _)
                  (completion_with (VStr (js " Resumen breve. ")))
                  (VStr (js " Resumen breve. ")) eq_refl eq_refl)
                (js " Resumen breve. ") eq_refl _); by_evaluation.
Defined.

(** C6 as stated fails: a first-choice content of three spaces is present,
    its trimmed value is the empty string, and the reply carries the fallback
    string instead of the trimmed content. *)
Lemma summarize_blank_content_not_returned_trimmed :
  responses (summarize_handler
               (sample_environment (Rejected timeout_error)
                                   (Resolved (completion_with (VStr blank))))
               (TextString (js "texto")))
  = [ json_reply 200 (js "summary") (VStr no_summary) ]
  /\ json_reply 200 (js "summary") (VStr no_summary)
     <> json_reply 200 (js "summary") (VStr (trim blank)).
Proof. split; by_evaluation. Qed.

(** ** Fallback strings *)

(** C9: an upstream field that is present but trims to the empty string
    (empty, or white space only, see [trim_nil]) yields the fallback string:
    "Sin texto reconocido" for the transcription text, "No se pudo generar el
    resumen." for the first choice's message content. *)
Theorem blank_upstream_fields_yield_fallbacks (k : jsstring) :
  trim k = [] ->
  (forall env f data,
     transcription_api env (transcription_request_of env f) = Resolved data ->
     get_prop data (js "text") = Normal (VStr k) ->
     responses (transcribe_handler env (Some f))
     = [ json_reply 200 (js "text") (VStr no_text_recognized) ])
  /\ (forall env s resp,
        s <> [] ->
        Z.of_nat (length s) <= max_text_length ->
        completion_api env (completion_request_of s) = Resolved resp ->
        first_choice_content resp = Normal (VStr k) ->
        responses (summarize_handler env (TextString s))
        = [ json_reply 200 (js "summary") (VStr no_summary) ]).
Proof.
  intros Hk. split.
  - intros env f data H Ht. rewrite (transcribe_reply _ _ _ _ H Ht), Hk. reflexivity.
  - intros env s resp Hs Hlen H Hc.
    rewrite (summarize_reply _ _ _ _ Hs Hlen H Hc), Hk. reflexivity.
Qed.

Lemma blank_upstream_fields_yield_fallbacks_witness :
  responses (transcribe_handler
               (sample_environment (Resolved (VObj [ (js "text", VStr blank) ]))
                                   (Rejected timeout_error))
               (Some sample_file))
  = [ json_reply 200 (js "text") (VStr no_text_recognized) ]
  /\ responses (summarize_handler
                  (sample_environment (Rejected timeout_error)
                                      (Resolved (completion_with (VStr []))))
                  (TextString (js "texto")))
     = [ json_reply 200 (js "summary") (VStr no_summary) ].
Proof.
  split.
  - apply (proj1 (blank_upstream_fields_yield_fallbacks blank eq_refl)
             (sample_environment (Resolved (VObj [ (js "text", VStr blank) ]))
                                 (Rejected timeout_error))
             sample_file (VObj [ (js "text", VStr blank) ]) eq_refl eq_refl).
  - refine (proj2 (blank_upstream_fields_yield_fallbacks [] eq_refl)
              (sample_environment (Rejected timeout_error)
                                  (Resolved (completion_with (VStr []))))
              (js "texto") (completion_with (VStr [])) _ _ eq_refl eq_refl);
      by_evaluation.
Defined.

(** ** Upload admission *)

Lemma fileFilter_allowed (mimetype : jsstring) :
  fileFilter mimetype = None <-> mimetype ∈ allowed.
Proof.
  unfold fileFilter. destruct (bool_decide_reflect (mimetype ∈ allowed)); simpl.
  - tauto.
  - split; [discriminate|contradiction].
Qed.

Lemma fileFilter_refused (mimetype : jsstring) :
  mimetype ∉ allowed ->
  fileFilter mimetype = Some (FilterError (js "Formato de audio no permitido")).
Proof.
  intros H. unfold fileFilter. rewrite bool_decide_eq_false_2 by exact H. reflexivity.
Qed.

(** The four outcomes of the upload middleware. *)
Lemma upload_single_cases env audio :
  ((audio = None \/ exists p, audio = Some p /\ part_filename p = [])
   /\ upload_single env audio = ([], NoFile))
  \/ (exists p, audio = Some p /\ part_filename p <> []
       /\ (to_lower (part_mimetype p) ∉ allowed)
       /\ upload_single env audio
          = ([], UploadFailed (FilterError (js "Formato de audio no permitido"))))
  \/ (exists p, audio = Some p /\ part_filename p <> []
       /\ (to_lower (part_mimetype p) ∈ allowed)
       /\ fileSize < part_size p
       /\ upload_single env audio
          = ([ EStoreWrite (upload_path env) (written_before_abort env);
               EUnlink (upload_path env) ],
             UploadFailed LimitFileSize))
  \/ (exists p, audio = Some p /\ part_filename p <> []
       /\ (to_lower (part_mimetype p) ∈ allowed)
       /\ part_size p <= fileSize
       /\ upload_single env audio
          = ([ EStoreWrite (upload_path env) (part_size p) ],
             Stored {| file_path := upload_path env;
                       file_originalname := part_filename p;
                       file_mimetype := to_lower (part_mimetype p);
                       file_size := part_size p |})).
Proof.
  destruct audio as [p|]; [|left; split; [left|]; reflexivity].
  unfold upload_single. destruct (part_filename p) as [|c name] eqn:Hname.
  { left. split; [right; eauto|reflexivity]. }
  assert (Hne : c :: name <> []) by discriminate.
  destruct (fileFilter (to_lower (part_mimetype p))) as [e|] eqn:Hf.
  - right. left. exists p.
    assert (Hout : to_lower (part_mimetype p) ∉ allowed).
    { intros Hin. apply fileFilter_allowed in Hin. congruence. }
    rewrite (fileFilter_refused _ Hout) in Hf. injection Hf as <-.
    rewrite Hname. repeat split; try assumption; reflexivity.
  - apply fileFilter_allowed in Hf.
    destruct (Z.ltb_spec fileSize (part_size p)).
    + right. right. left. exists p.
      rewrite Hname. repeat split; try assumption; reflexivity.
    + right. right. right. exists p.
      rewrite Hname. repeat split; try assumption; reflexivity.
Qed.




(** ** Errors raised in front of the handlers *)

(** C7, at the failing input: a named upload whose media type is not on the
    allowed list is refused by the file filter with the error "Formato de
    audio no permitido"; index.js has no error-handling middleware, so the
    response of POST /transcribe is the framework's error page with status
    500: not a JSON [{error}] object, and not a 4xx status, for what is a
    validation failure. *)
Theorem refused_upload_answered_with_error_page env (p : file_part) :
  part_filename p <> [] ->
  to_lower (part_mimetype p) ∉ allowed ->
  route env (PostTranscribe (Some p))
  = [ ERespond {| status := 500; payload := BodyErrorPage |} ]
  /\ ~ is_error_json {| status := 500; payload := BodyErrorPage |}
  /\ fileFilter (to_lower (part_mimetype p))
     = Some (FilterError (js "Formato de audio no permitido")).
Proof.
  intros Hn Hout. split; [|split].
  - unfold route, upload_single. destruct (part_filename p); [contradiction|].
    rewrite (fileFilter_refused _ Hout). reflexivity.
  - intros [msg H]. discriminate H.
  - apply fileFilter_refused. exact Hout.
Qed.

Lemma refused_upload_answered_with_error_page_witness :
  route (sample_environment (Rejected timeout_error) (Rejected timeout_error))
        (PostTranscribe (Some video_part))
  = [ ERespond {| status := 500; payload := BodyErrorPage |} ].
Proof.
  apply (refused_upload_answered_with_error_page
           (sample_environment (Rejected timeout_error) (Rejected timeout_error))
           video_part).
  - by_evaluation.
  - apply (bool_decide_unpack _). by_evaluation.
Defined.

(** ** JSON body limit *)

Lemma long_text_length : max_text_length < Z.of_nat (length long_text).
Proof. unfold long_text. rewrite repeat_length. unfold max_text_length. lia. Qed.

(** C10, as amended: a JSON body of more than 2 MiB (2097152 bytes) is
    refused by the body parser whatever its text, the route trace is the
    framework's 413 reply alone, and no upstream call is made, so the
    /summarize handler only ever runs on bodies within the limit; for those
    the outcome is the handler's and depends on the text alone.  The two
    checks are independent, and the body limit is not the stricter one: a
    body within the limit can hold a text over 20000 code units, which the
    handler refuses. *)
Theorem body_limit_precedes_handler env (body_bytes : Z) (text : text_field) :
  (2 * 1024 * 1024 < body_bytes ->
   route env (PostSummarize body_bytes text)
   = [ ERespond {| status := 413; payload := BodyErrorPage |} ]
   /\ forall tbl ip now,
        upstream_calls
          (snd (app_handle env tbl
                  {| req_ip := ip; req_time := now;
                     req_kind := PostSummarize body_bytes text |})) = [])
  /\ (body_bytes <= 2 * 1024 * 1024 ->
      route env (PostSummarize body_bytes text) = summarize_handler env text)
  /\ (exists bytes s,
        bytes <= 2 * 1024 * 1024
        /\ max_text_length < Z.of_nat (length s)
        /\ route env (PostSummarize bytes (TextString s))
           = [ ERespond (error_reply 400 text_too_long_message) ]).
Proof.
  split; [|split].
  - intros Hbig.
    assert (E : (json_limit <? body_bytes) = true)
      by (apply Z.ltb_lt; unfold json_limit; lia).
    unfold route. rewrite E. split; [reflexivity|].
    intros tbl ip now. apply app_handle_no_calls.
    cbn [req_kind route]. rewrite E. reflexivity.
  - intros Hok.
    assert (E : (json_limit <? body_bytes) = false)
      by (apply Z.ltb_ge; unfold json_limit; lia).
    unfold route. rewrite E. reflexivity.
  - exists 20012, long_text. split; [lia|]. split; [exact long_text_length|].
    unfold route. change (json_limit <? 20012) with false. cbv iota.
    apply summarize_handler_too_long. exact long_text_length.
Qed.

Lemma body_limit_precedes_handler_witness :
  route (sample_environment (Rejected timeout_error) (Rejected timeout_error))
        (PostSummarize 3000000 (TextString (js "hola")))
  = [ ERespond {| status := 413; payload := BodyErrorPage |} ].
Proof.
  apply (proj1 (body_limit_precedes_handler
                  (sample_environment (Rejected timeout_error) (Rejected timeout_error))
                  3000000 (TextString (js "hola")))).
  lia.
Defined.

(** C10 as stated fails on "stricter": the body [{"text":"aa...a"}] with
    20001 letters is 20012 bytes long, well within the body limit, and it is
    the handler's text check that refuses it. *)
Lemma body_within_limit_text_too_long :
  20012 <= json_limit
  /\ route (sample_environment (Rejected timeout_error) (Rejected timeout_error))
           (PostSummarize 20012 (TextString long_text))
     = [ ERespond (error_reply 400 text_too_long_message) ].
Proof. split; [unfold json_limit; lia|]. by_evaluation. Qed.

(** ** Rate limiter *)

Lemma limiter_step_live now ip tbl w :
  tbl !! ip = Some w ->
  now < window_start w + windowMs ->
  limiter_step now ip tbl
  = (hits w + 1 <=? limiter_max,
     <[ip := {| hits := hits w + 1; window_start := window_start w |}]> tbl).
Proof.
  intros H Hnow. unfold limiter_step. rewrite H.
  destruct (Z.leb_spec (window_start w + windowMs) now); [lia|reflexivity].
Qed.

Lemma limiter_step_expired now ip tbl w :
  tbl !! ip = Some w ->
  window_start w + windowMs <= now ->
  limiter_step now ip tbl
  = (true, <[ip := {| hits := 1; window_start := now |}]> tbl).
Proof.
  intros H Hnow. unfold limiter_step. rewrite H.
  destruct (Z.leb_spec (window_start w + windowMs) now); [reflexivity|lia].
Qed.

Lemma limiter_step_other now ip ip' tbl :
  ip <> ip' ->
  snd (limiter_step now ip tbl) !! ip' = tbl !! ip'.
Proof. intros H. unfold limiter_step. simpl. apply lookup_insert_ne. exact H. Qed.

Lemma app_handle_table env tbl req :
  fst (app_handle env tbl req) = snd (limiter_step (req_time req) (req_ip req) tbl).
Proof. unfold app_handle. destruct (limiter_step _ _ _). reflexivity. Qed.

Lemma app_handle_trace env tbl req :
  snd (app_handle env tbl req)
  = if fst (limiter_step (req_time req) (req_ip req) tbl)
    then route env (req_kind req)
    else [ ERespond rate_limited_reply ].
Proof. unfold app_handle. destruct (limiter_step _ _ _). reflexivity. Qed.

Lemma limiter_step_counted now ip tbl :
  counted tbl -> counted (snd (limiter_step now ip tbl)).
Proof.
  intros Hc ip' w'. unfold limiter_step. simpl.
  destruct (decide (ip = ip')) as [<-|Hne].
  - rewrite lookup_insert_eq. intros [= <-]. simpl.
    destruct (tbl !! ip) as [w|] eqn:H; simpl; [|lia].
    destruct (window_start w + windowMs <=? now); simpl; [lia|].
    specialize (Hc ip w H). lia.
  - rewrite lookup_insert_ne by exact Hne. apply Hc.
Qed.

Lemma serve_counted reqs tbl : counted tbl -> counted (serve tbl reqs).
Proof.
  revert tbl. induction reqs as [|[env req] reqs IH]; intros tbl Hc; cbn [serve]; [exact Hc|].
  apply IH. rewrite app_handle_table. apply limiter_step_counted. exact Hc.
Qed.

Lemma counted_empty : counted ∅.
Proof. intros ip w H. rewrite lookup_empty in H. discriminate H. Qed.

Section Window.

Variable ip : string.

Lemma count_from_cons er reqs :
  count_from ip (er :: reqs)
  = (if bool_decide (req_ip (snd er) = ip) then 1 else 0) + count_from ip reqs.
Proof.
  unfold count_from. simpl. destruct (bool_decide (req_ip (snd er) = ip)); simpl; lia.
Qed.

(** While the requests of [ip] stay inside its current window, the window
    start is kept and each of them adds one to the count. *)
Lemma serve_same_window reqs : forall tbl w,
  tbl !! ip = Some w ->
  (forall er, In er reqs -> req_ip (snd er) = ip ->
     req_time (snd er) < window_start w + windowMs) ->
  serve tbl reqs !! ip
  = Some {| hits := hits w + count_from ip reqs; window_start := window_start w |}.
Proof.
  induction reqs as [|[env req] reqs IH]; intros tbl w H Hin.
  - simpl. rewrite H. unfold count_from. simpl. destruct w; simpl. f_equal. f_equal. lia.
  - cbn [serve]. rewrite count_from_cons. cbn [snd].
    destruct (bool_decide_reflect (req_ip req = ip)) as [Heq|Hne].
    + rewrite (IH _ {| hits := hits w + 1; window_start := window_start w |}).
      * simpl. f_equal. f_equal. lia.
      * rewrite app_handle_table, Heq.
        rewrite (limiter_step_live _ _ _ w H); [apply lookup_insert_eq|].
        apply (Hin (env, req)); [left; reflexivity|exact Heq].
      * simpl. intros er Her. apply Hin. right. exact Her.
    + rewrite (IH _ w).
      * f_equal.
      * rewrite app_handle_table, limiter_step_other by exact Hne. exact H.
      * intros er Her. apply Hin. right. exact Her.
Qed.

End Window.

(** C3, as amended: when an address sends sixteen requests inside one window
    of the limiter (the window the first of them opens or finds open, 60000 ms
    long; requests of other addresses may come in between), the sixteenth
    is answered with status 429 and the body
    [{error: "Demasiadas peticiones, intentá más tarde."}], and nothing else
    happens for it; the first request of that address at or after the end of
    the window is admitted, and its count restarts at 1. *)
Theorem sixteenth_request_rejected history first others env r w :
  serve (serve ∅ history) [first] !! req_ip (snd first) = Some w ->
  count_from (req_ip (snd first)) others = 14 ->
  (forall er, In er others -> req_ip (snd er) = req_ip (snd first) ->
     req_time (snd er) < window_start w + windowMs) ->
  req_ip r = req_ip (snd first) ->
  req_time r < window_start w + windowMs ->
  snd (app_handle env (serve (serve ∅ history) (first :: others)) r)
  = [ ERespond
        {| status := 429;
           payload :=
             BodyJson
               (VObj [ (js "error",
                        VStr (js "Demasiadas peticiones, intent" ++ [225%N] ++ js " m"
                              ++ [225%N] ++ js "s tarde.")) ]) |} ]
  /\ forall env' r',
       req_ip r' = req_ip (snd first) ->
       window_start w + windowMs <= req_time r' ->
       app_handle env' (serve (serve ∅ history) (first :: others ++ [(env, r)])) r'
       = (<[req_ip r' := {| hits := 1; window_start := req_time r' |}]>
            (serve (serve ∅ history) (first :: others ++ [(env, r)])),
          route env' (req_kind r')).
Proof.
  destruct first as [env1 r1]. cbn [snd].
  intros Hw Hcount Hothers Hip Hnow.
  set (ip := req_ip r1) in *.
  set (tbl := serve ∅ history) in *.
  assert (Hhits : 1 <= hits w).
  { apply (serve_counted [(env1, r1)] tbl (serve_counted history ∅ counted_empty) ip w Hw). }
  split.
  - change (serve tbl ((env1, r1) :: others)) with (serve (serve tbl [(env1, r1)]) others).
    pose proof (serve_same_window ip others _ w Hw Hothers) as Hl.
    rewrite app_handle_trace, Hip.
    rewrite (limiter_step_live _ _ _ _ Hl) by exact Hnow.
    cbn [fst hits]. rewrite Hcount.
    destruct (Z.leb_spec (hits w + 14 + 1) limiter_max) as [Hle|_];
      [unfold limiter_max in Hle; lia | reflexivity].
  - intros env' r' Hip' Hlate.
    change (serve tbl ((env1, r1) :: others ++ [(env, r)]))
      with (serve (serve tbl [(env1, r1)]) (others ++ [(env, r)])).
    assert (Hl : serve (serve tbl [(env1, r1)]) (others ++ [(env, r)]) !! ip
                 = Some {| hits := hits w + count_from ip (others ++ [(env, r)]);
                           window_start := window_start w |}).
    { apply serve_same_window; [exact Hw|].
      intros er Her Heq. apply in_app_or in Her. destruct Her as [Her|[<-|[]]].
      - apply Hothers; assumption.
      - exact Hnow. }
    unfold app_handle. rewrite Hip'.
    rewrite (limiter_step_expired _ _ _ _ Hl) by exact Hlate. reflexivity.
Qed.

Lemma sixteenth_request_rejected_witness :
  snd (app_handle (sample_environment (Rejected timeout_error) (Rejected timeout_error))
         (serve (serve ∅ []) (burst 0 15))
         {| req_ip := "203.0.113.7"; req_time := 15000; req_kind := GetHealth |})
  = [ ERespond rate_limited_reply ].
Proof.
  refine (proj1 (sixteenth_request_rejected []
                   (sample_environment (Rejected timeout_error) (Rejected timeout_error),
                    {| req_ip := "203.0.113.7"; req_time := 0; req_kind := GetHealth |})
                   (burst 1000 14)
                   (sample_environment (Rejected timeout_error) (Rejected timeout_error))
                   {| req_ip := "203.0.113.7"; req_time := 15000; req_kind := GetHealth |}
                   {| hits := 1; window_start := 0 |}
                   _ _ _ _ _)).
  - by_evaluation.
  - by_evaluation.
  - intros er Her _. simpl in Her.
    repeat (destruct Her as [<-|Her]; [by_evaluation|]).
    destruct Her.
  - reflexivity.
  - by_evaluation.
Defined.

(** C3 as stated fails.  On the body: the sixteenth of sixteen requests sent
    one second apart is answered 429 with the message configured in index.js,
    not with [{error: "too many requests, try later"}].  On the window: it is
    fixed, not rolling; after one request at time 0, sixteen requests between
    52.5 s and 67.5 s lie within fifteen seconds of each other, yet fall on
    both sides of the window's end and are all admitted. *)
Lemma sixteenth_request_as_stated_fails :
  snd (app_handle (sample_environment (Rejected timeout_error) (Rejected timeout_error))
         (serve ∅ (burst 0 15))
         {| req_ip := "203.0.113.7"; req_time := 15000; req_kind := GetHealth |})
  = [ ERespond rate_limited_reply ]
  /\ rate_limited_reply
     <> {| status := 429;
           payload := BodyJson (VObj [ (js "error",
                                        VStr (js "too many requests, try later")) ]) |}
  /\ serve_traces (serve ∅ (burst 0 1)) (burst 52500 16)
     = repeat [ ERespond {| status := 200; payload := BodyText health_message |} ] 16.
Proof. repeat split; by_evaluation. Qed.

(** * Further properties of the handlers and their helpers *)

(** ** [trim] *)

Lemma trim_start_split (s : jsstring) :
  exists p, s = p ++ trim_start s /\ forallb is_js_space p = true.
Proof.
  induction s as [|c s [p [Hs Hp]]]; [exists []; split; reflexivity|].
  simpl. destruct (is_js_space c) eqn:E.
  - exists (c :: p). split; [simpl; f_equal; exact Hs|simpl; rewrite E; exact Hp].
  - exists []. split; reflexivity.
Qed.

Lemma trim_start_clean (s : jsstring) : starts_clean (trim_start s).
Proof.
  induction s as [|c s IH]; simpl; [exact I|].
  destruct (is_js_space c) eqn:E; [exact IH|exact E].
Qed.

Lemma trim_start_id (s : jsstring) : starts_clean s -> trim_start s = s.
Proof. destruct s as [|c s]; simpl; [reflexivity|]. intros ->. reflexivity. Qed.

Lemma starts_clean_prefix (u v : jsstring) : starts_clean (u ++ v) -> starts_clean u.
Proof. destruct u; simpl; [intros _; exact I|tauto]. Qed.

Lemma trim_split (s : jsstring) :
  exists p q, s = p ++ trim s ++ q
              /\ forallb is_js_space p = true /\ forallb is_js_space q = true.
Proof.
  destruct (trim_start_split s) as [p [Hs Hp]].
  destruct (trim_start_split (rev (trim_start s))) as [q [Ha Hq]].
  exists p, (rev q). split; [|split; [exact Hp|rewrite forallb_rev; exact Hq]].
  unfold trim, trim_end. rewrite <- rev_app_distr, <- Ha, rev_involutive. exact Hs.
Qed.

Lemma trim_clean (s : jsstring) :
  starts_clean (trim s) /\ starts_clean (rev (trim s)).
Proof.
  unfold trim, trim_end. split.
  - destruct (trim_start_split (rev (trim_start s))) as [q [Ha Hq]].
    pose proof (trim_start_clean s) as Hc.
    rewrite <- (rev_involutive (trim_start s)), Ha, rev_app_distr in Hc.
    exact (starts_clean_prefix _ _ Hc).
  - rewrite rev_involutive. apply trim_start_clean.
Qed.

Lemma trim_fixed (u : jsstring) :
  starts_clean u -> starts_clean (rev u) -> trim u = u.
Proof.
  intros H1 H2. unfold trim, trim_end.
  rewrite (trim_start_id u H1), (trim_start_id (rev u) H2). apply rev_involutive.
Qed.

Lemma trim_tidy (s : jsstring) : trim s <> [] -> tidy (trim s).
Proof. intros H. split; [exact H|apply trim_clean]. Qed.

(** X1: [trim] removes white space from the two ends and nothing else: the
    string is a blank prefix, the trimmed string and a blank suffix; the
    trimmed string has no white space at either end, is no longer than the
    string, and trimming it again changes nothing. *)
Theorem trim_strips_both_ends_only (s : jsstring) :
  (exists p q, s = p ++ trim s ++ q
               /\ forallb is_js_space p = true /\ forallb is_js_space q = true)
  /\ starts_clean (trim s)
  /\ starts_clean (rev (trim s))
  /\ (length (trim s) <= length s)%nat
  /\ trim (trim s) = trim s.
Proof.
  pose proof (trim_split s) as Hsplit. pose proof (trim_clean s) as [H1 H2].
  split; [exact Hsplit|]. split; [exact H1|]. split; [exact H2|]. split.
  - destruct Hsplit as [p [q [Hs _]]]. rewrite Hs at 2.
    rewrite !length_app. lia.
  - apply trim_fixed; assumption.
Qed.

(** ** Paths through the handlers *)

Lemma fallbacks_tidy : tidy no_text_recognized /\ tidy no_summary.
Proof. repeat split; by_evaluation. Qed.

Lemma trimmed_or_default (v x : jsval) (d : jsstring) :
  trim_opt v = Normal x ->
  tidy d ->
  exists k, or_else x (VStr d) = VStr k /\ tidy k.
Proof.
  intros Hv Hd. destruct v as [| | | |s| |]; simpl in Hv; try discriminate Hv;
    injection Hv as <-; try (exists d; split; [reflexivity|exact Hd]).
  rewrite or_else_string. destruct (trim s) as [|c k] eqn:E.
  - exists d. split; [reflexivity|exact Hd].
  - exists (c :: k). split; [reflexivity|]. rewrite <- E. apply trim_tidy.
    rewrite E. discriminate.
Qed.

Lemma transcript_normal data t :
  transcript data = Normal t -> exists k, t = VStr k /\ tidy k.
Proof.
  unfold transcript. destruct (get_prop data (js "text")) as [text|e]; [|discriminate].
  cbn [bind]. destruct (trim_opt text) as [x|e] eqn:Hx; [|discriminate].
  cbn [bind]. intros [= <-].
  destruct (trimmed_or_default _ _ _ Hx (proj1 fallbacks_tidy)) as [k [-> Hk]]. eauto.
Qed.

Lemma summary_normal resp t :
  summary resp = Normal t -> exists k, t = VStr k /\ tidy k.
Proof.
  unfold summary. destruct (first_choice_content resp) as [c|e]; [|discriminate].
  cbn [bind]. destruct (trim_opt c) as [x|e] eqn:Hx; [|discriminate].
  cbn [bind]. intros [= <-].
  destruct (trimmed_or_default _ _ _ Hx (proj2 fallbacks_tidy)) as [k [-> Hk]]. eauto.
Qed.


Lemma upload_no_call env audio : upstream_calls (fst (upload_single env audio)) = [].
Proof.
  destruct (upload_single_cases env audio)
    as [[_ Hu]|[[p [_ [_ [_ Hu]]]]|[[p [_ [_ [_ [_ Hu]]]]]|[p [_ [_ [_ [_ Hu]]]]]]]];
    rewrite Hu; reflexivity.
Qed.

Lemma route_transcribe env audio :
  route env (PostTranscribe audio)
  = fst (upload_single env audio)
    ++ match snd (upload_single env audio) with
       | UploadFailed e => [ ERespond (default_error_reply e) ]
       | NoFile => transcribe_handler env None
       | Stored f => transcribe_handler env (Some f)
       end.
Proof. unfold route. destruct (upload_single env audio). reflexivity. Qed.

(** ** Upstream calls *)

Lemma transcribe_calls env file :
  upstream_calls (transcribe_handler env file)
  = match file with
    | Some f => [ ETranscriptionCall (transcription_request_of env f) ]
    | None => []
    end.
Proof.
  destruct file as [f|]; [|reflexivity].
  transcribe_paths env f; reflexivity.
Qed.

Lemma summarize_calls env text :
  upstream_calls (summarize_handler env text)
  = match text with
    | TextString (c :: s) =>
        if max_text_length <? Z.of_nat (length (c :: s)) then []
        else [ ECompletionCall (completion_request_of (c :: s)) ]
    | _ => []
    end.
Proof. summarize_paths env text; reflexivity. Qed.

Lemma upstream_calls_app t1 t2 :
  upstream_calls (t1 ++ t2) = upstream_calls t1 ++ upstream_calls t2.
Proof. apply List.filter_app. Qed.

Lemma route_calls env k :
  upstream_calls (route env k)
  = match k with
    | PostTranscribe audio =>
        match snd (upload_single env audio) with
        | Stored f => [ ETranscriptionCall (transcription_request_of env f) ]
        | _ => []
        end
    | PostSummarize body_bytes text =>
        if json_limit <? body_bytes then []
        else upstream_calls (summarize_handler env text)
    | GetHealth => []
    end.
Proof.
  destruct k as [audio|body_bytes text|]; [| |reflexivity].
  - rewrite route_transcribe, upstream_calls_app, upload_no_call. cbn [app].
    destruct (snd (upload_single env audio)); [| |reflexivity];
      rewrite transcribe_calls; reflexivity.
  - unfold route. destruct (json_limit <? body_bytes); reflexivity.
Qed.

Lemma in_upstream_calls e t : In e t -> is_upstream_call e = true -> In e (upstream_calls t).
Proof. intros H1 H2. apply List.filter_In. split; assumption. Qed.

(** X2: a request causes at most one upstream call, of the kind of its route:
    the health check causes none, POST /transcribe never calls the completion
    service and POST /summarize never calls the transcription service; a
    request stopped by the limiter causes none. *)
Theorem at_most_one_upstream_call env tbl req :
  (length (upstream_calls (snd (app_handle env tbl req))) <= 1)%nat
  /\ (req_kind req = GetHealth -> upstream_calls (snd (app_handle env tbl req)) = [])
  /\ (forall r, In (ETranscriptionCall r) (snd (app_handle env tbl req)) ->
        exists audio, req_kind req = PostTranscribe audio)
  /\ (forall r, In (ECompletionCall r) (snd (app_handle env tbl req)) ->
        exists body_bytes text, req_kind req = PostSummarize body_bytes text)
  /\ (fst (limiter_step (req_time req) (req_ip req) tbl) = false ->
      upstream_calls (snd (app_handle env tbl req)) = []).
Proof.
  assert (Hc : upstream_calls (snd (app_handle env tbl req)) = []
               \/ upstream_calls (snd (app_handle env tbl req))
                  = upstream_calls (route env (req_kind req))).
  { unfold app_handle. destruct (limiter_step _ _ _) as [[] tbl']; cbn [snd]; auto. }
  assert (Hin : forall e, In e (snd (app_handle env tbl req)) -> is_upstream_call e = true ->
                          In e (upstream_calls (route env (req_kind req)))).
  { intros e He Hu. pose proof (in_upstream_calls _ _ He Hu) as H.
    destruct Hc as [Hc|Hc]; rewrite Hc in H; [destruct H|exact H]. }
  repeat apply conj.
  - destruct Hc as [-> | ->]; [simpl; lia|]. rewrite route_calls.
    destruct (req_kind req) as [audio|body_bytes text|]; [| |simpl; lia].
    + destruct (snd (upload_single env audio)); simpl; lia.
    + destruct (json_limit <? body_bytes); [simpl; lia|].
      rewrite summarize_calls. destruct text as [| |[|c s]]; try (simpl; lia).
      destruct (max_text_length <? _); simpl; lia.
  - intros Hk. destruct Hc as [-> | ->]; [reflexivity|]. rewrite Hk. reflexivity.
  - intros r Hr. specialize (Hin _ Hr eq_refl). rewrite route_calls in Hin.
    destruct (req_kind req) as [audio|body_bytes text|]; [eauto| |destruct Hin].
    destruct (json_limit <? body_bytes); [destruct Hin|].
    rewrite summarize_calls in Hin. destruct text as [| |[|c s]]; try destruct Hin.
    destruct (max_text_length <? _); [destruct Hin|].
    destruct Hin as [Hin|[]]. discriminate Hin.
  - intros r Hr. specialize (Hin _ Hr eq_refl). rewrite route_calls in Hin.
    destruct (req_kind req) as [audio|body_bytes text|]; [|eauto|destruct Hin].
    destruct (snd (upload_single env audio)) as [|f|e];
      [destruct Hin | destruct Hin as [Hin|[]]; discriminate Hin | destruct Hin].
  - intros Hl. rewrite app_handle_trace, Hl. reflexivity.
Qed.

Lemma stored_upload env audio f :
  snd (upload_single env audio) = Stored f ->
  exists p, audio = Some p
            /\ part_filename p <> []
            /\ (to_lower (part_mimetype p) ∈ allowed)
            /\ part_size p <= fileSize
            /\ f = {| file_path := upload_path env;
                      file_originalname := part_filename p;
                      file_mimetype := to_lower (part_mimetype p);
                      file_size := part_size p |}.
Proof.
  destruct (upload_single_cases env audio)
    as [[_ Hu]|[[p [_ [_ [_ Hu]]]]|[[p [_ [_ [_ [_ Hu]]]]]|[p [Ha [Hn [Hm [Hs Hu]]]]]]]];
    rewrite Hu; cbn [snd]; intros H; try discriminate H.
  injection H as <-. exists p. repeat split; assumption.
Qed.

(** X3: whenever POST /transcribe calls the transcription service, the file
    it streams is the one the upload middleware just stored for this request;
    the content type sent is the part's media type in lower case and is one
    of the three allowed types; the size is within the 25 MiB limit; and the
    file name sent is the part's own, which is never empty, because a part
    that names no file is never stored. *)
Theorem transcription_call_carries_admitted_file env audio r :
  In (ETranscriptionCall r) (route env (PostTranscribe audio)) ->
  exists p,
    audio = Some p
    /\ tr_file r = upload_path env
    /\ tr_content_type r = to_lower (part_mimetype p)
    /\ (tr_content_type r ∈ allowed)
    /\ part_size p <= 25 * 1024 * 1024
    /\ part_filename p <> []
    /\ tr_filename r = part_filename p
    /\ tr_model r = js "whisper-large-v3".
Proof.
  intros Hr. pose proof (in_upstream_calls _ _ Hr eq_refl) as Hin.
  rewrite route_calls in Hin.
  destruct (snd (upload_single env audio)) as [|f|e] eqn:Hup;
    [destruct Hin | destruct Hin as [Hin|[]] | destruct Hin].
  injection Hin as <-.
  destruct (stored_upload _ _ _ Hup) as [p [-> [Hn [Hm [Hs ->]]]]].
  exists p. cbn. unfold fileSize in Hs. repeat split; try assumption.
  destruct (part_filename p); [contradiction|reflexivity].
Qed.

Lemma transcription_call_carries_admitted_file_witness :
  exists p,
    Some capitals_part = Some p
    /\ js "audio/mp3" = to_lower (part_mimetype p)
    /\ (js "audio/mp3" ∈ allowed).
Proof.
  destruct (transcription_call_carries_admitted_file
              (sample_environment (Rejected timeout_error) (Rejected timeout_error))
              (Some capitals_part)
              (transcription_request_of
                 (sample_environment (Rejected timeout_error) (Rejected timeout_error))
                 {| file_path := js "uploads/3f9c2a";
                    file_originalname := js "nota.mp3";
                    file_mimetype := js "audio/mp3";
                    file_size := 4096 |}))
    as [p [H1 [_ [H2 [H3 _]]]]].
  - vm_compute. do 3 right. left. reflexivity.
  - exists p. repeat split; assumption.
Defined.



(** ** Deleting the temporary file *)






Lemma unlink_attempts_here p t : unlink_attempts p (EUnlink p :: t) = S (unlink_attempts p t).
Proof. unfold unlink_attempts. simpl. rewrite bool_decide_eq_true_2 by reflexivity. reflexivity. Qed.


(** X7: a failing [fs.unlink] changes nothing the client sees: with any other
    outcome of the deletion the handler's responses and upstream calls are the
    same, and the traces differ in warning lines only; when the deletion
    fails, the one warning comes last, after the response. *)
Theorem unlink_failure_only_warns env u file :
  responses (transcribe_handler (with_unlink_error env u) file)
  = responses (transcribe_handler env file)
  /\ upstream_calls (transcribe_handler (with_unlink_error env u) file)
     = upstream_calls (transcribe_handler env file)
  /\ drop_warnings (transcribe_handler (with_unlink_error env u) file)
     = drop_warnings (transcribe_handler env file)
  /\ (forall f err,
        file = Some f -> u (file_path f) = Some err ->
        unlink_attempts (file_path f) (transcribe_handler env file) = 1%nat ->
        transcribe_handler (with_unlink_error env u) file
        = drop_warnings (transcribe_handler env file)
          ++ [ ELog LogWarn
                 ([9888%N; 65039%N] ++ js " No se pudo eliminar archivo temporal:")
                 [LogErrorObject err] ]).
Proof.
  destruct file as [f|]; [|repeat split; intros f err H; discriminate H].
  assert (Hr : transcription_request_of (with_unlink_error env u) f
               = transcription_request_of env f) by reflexivity.
  unfold transcribe_handler. rewrite Hr.
  cbn [with_unlink_error transcription_api unlink_error].
  destruct (transcription_api env (transcription_request_of env f)) as [data|e].
  - destruct (transcript data) as [t|e].
    + repeat split.
      * destruct (u (file_path f)), (unlink_error env (file_path f)); reflexivity.
      * destruct (u (file_path f)), (unlink_error env (file_path f)); reflexivity.
      * destruct (u (file_path f)), (unlink_error env (file_path f)); reflexivity.
      * intros f' err [= <-] Hu _. rewrite Hu.
        destruct (unlink_error env (file_path f)); reflexivity.
    + repeat split. intros f' err [= <-] _ H. discriminate H.
  - repeat split. intros f' err [= <-] _ H. discriminate H.
Qed.

(** ** Replies *)

Lemma transcribe_ok_reply env file r :
  In r (responses (transcribe_handler env file)) ->
  status r = 200 ->
  exists k, r = json_reply 200 (js "text") (VStr k) /\ tidy k.
Proof.
  destruct file as [f|]; [|intros H; in_cases H; subst r; discriminate].
  transcribe_paths env f; intros H Hs; in_cases H; subst r; try discriminate Hs;
    destruct (transcript_normal _ _ Hread) as [k [-> Hk]]; eauto.
Qed.

Lemma summarize_ok_reply env text r :
  In r (responses (summarize_handler env text)) ->
  status r = 200 ->
  exists k, r = json_reply 200 (js "summary") (VStr k) /\ tidy k.
Proof.
  summarize_paths env text; intros H Hs; in_cases H; subst r; try discriminate Hs.
  destruct (summary_normal _ _ Hread) as [k [-> Hk]]; eauto.
Qed.

(** X8: the string in a 200 reply of either POST handler is never empty and
    never starts or ends with white space: it is the trimmed upstream text,
    or the fallback literal. *)
Theorem ok_replies_carry_tidy_text env :
  (forall file r,
     In r (responses (transcribe_handler env file)) ->
     status r = 200 ->
     exists k, r = json_reply 200 (js "text") (VStr k)
               /\ k <> [] /\ starts_clean k /\ starts_clean (rev k) /\ trim k = k)
  /\ (forall text r,
        In r (responses (summarize_handler env text)) ->
        status r = 200 ->
        exists k, r = json_reply 200 (js "summary") (VStr k)
                  /\ k <> [] /\ starts_clean k /\ starts_clean (rev k) /\ trim k = k).
Proof.
  split.
  - intros file r H Hs.
    destruct (transcribe_ok_reply _ _ _ H Hs) as [k [-> [Hk [H1 H2]]]].
    exists k. repeat split; try assumption. apply trim_fixed; assumption.
  - intros text r H Hs.
    destruct (summarize_ok_reply _ _ _ H Hs) as [k [-> [Hk [H1 H2]]]].
    exists k. repeat split; try assumption. apply trim_fixed; assumption.
Qed.

(** X9: each handler writes one [console.error] line exactly when it answers
    500, and none otherwise: a 400 reply and a 200 reply leave no error line,
    a 500 reply always has one. *)
Theorem error_line_iff_500 env :
  (forall file,
     exists r, responses (transcribe_handler env file) = [r]
               /\ length (error_logs (transcribe_handler env file))
                  = (if status r =? 500 then 1%nat else 0%nat))
  /\ (forall text,
        exists r, responses (summarize_handler env text) = [r]
                  /\ length (error_logs (summarize_handler env text))
                     = (if status r =? 500 then 1%nat else 0%nat)).
Proof.
  split.
  - intros [f|]; [|eexists; split; reflexivity].
    transcribe_paths env f; eexists; split; reflexivity.
  - intros text. summarize_paths env text; eexists; split; reflexivity.
Qed.






(** ** Upstream answers that cannot be read *)

Lemma transcript_by_answer data :
  transcript data
  = if nullish data || not_text (read_prop data (js "text"))
    then Throw TypeError
    else Normal (or_else (match read_prop data (js "text") with
                          | VStr s => VStr (trim s)
                          | _ => VUndefined
                          end) (VStr no_text_recognized)).
Proof.
  unfold transcript, get_prop. destruct (nullish data); [reflexivity|].
  cbn [bind orb]. destruct (read_prop data (js "text")); reflexivity.
Qed.

(** X11: when the transcription call resolves, the handler answers 500
    exactly when the answer is [null] or [undefined] or its [text] is
    something other than a string, [null] or [undefined] (a number, a
    boolean, an array, an object); in that case no deletion is attempted.
    Every other answer gets a 200. *)
Theorem unreadable_transcription_iff_500 env f data :
  transcription_api env (transcription_request_of env f) = Resolved data ->
  (responses (transcribe_handler env (Some f)) = [ error_reply 500 transcribe_error_message ]
   <-> nullish data = true \/ not_text (read_prop data (js "text")) = true)
  /\ (nullish data = true \/ not_text (read_prop data (js "text")) = true ->
      unlink_attempts (file_path f) (transcribe_handler env (Some f)) = 0%nat)
  /\ (nullish data = false -> not_text (read_prop data (js "text")) = false ->
      exists k, responses (transcribe_handler env (Some f))
                = [ json_reply 200 (js "text") (VStr k) ]).
Proof.
  intros H.
  assert (Hbad : nullish data = true \/ not_text (read_prop data (js "text")) = true ->
                 transcribe_handler env (Some f)
                 = [ ELog LogInfo ([55357%N; 56548%N] ++ js " Transcribiendo:")
                       [LogValue (VStr (file_originalname f))];
                     EReadStream (file_path f);
                     ETranscriptionCall (transcription_request_of env f) ]
                   ++ transcribe_failed TypeError).
  { intros Hc. unfold transcribe_handler. rewrite H, transcript_by_answer.
    destruct Hc as [-> | ->]; [|rewrite orb_true_r]; reflexivity. }
  assert (Hok : nullish data = false -> not_text (read_prop data (js "text")) = false ->
                exists k, responses (transcribe_handler env (Some f))
                          = [ json_reply 200 (js "text") (VStr k) ]).
  { intros H1 H2. rewrite responses_after_call, (transcribe_handler_resolved _ _ _ H).
    destruct (transcript data) as [t|e] eqn:Ht.
    - destruct (transcript_normal _ _ Ht) as [k [-> _]]. exists k.
      destruct (unlink_error env (file_path f)); reflexivity.
    - rewrite transcript_by_answer, H1, H2 in Ht. discriminate Ht. }
  split; [split|split].
  - intros Hr. destruct (nullish data) eqn:H1; [auto|].
    destruct (not_text (read_prop data (js "text"))) eqn:H2; [auto|].
    destruct (Hok eq_refl eq_refl) as [k Hk]. rewrite Hk in Hr. discriminate Hr.
  - intros Hc. rewrite (Hbad Hc). reflexivity.
  - intros Hc. rewrite (Hbad Hc). reflexivity.
  - exact Hok.
Qed.

Lemma unreadable_transcription_iff_500_witness :
  responses (transcribe_handler
               (sample_environment (Resolved (VObj [ (js "text", VNum 42) ]))
                                   (Rejected timeout_error))
               (Some sample_file))
  = [ error_reply 500 transcribe_error_message ].
Proof.
  apply (proj2 (proj1 (unreadable_transcription_iff_500
                         (sample_environment (Resolved (VObj [ (js "text", VNum 42) ]))
                                             (Rejected timeout_error))
                         sample_file (VObj [ (js "text", VNum 42) ]) eq_refl))).
  right. reflexivity.
Defined.

Lemma first_choice_content_throws resp :
  first_choice_content resp = Throw TypeError
  <-> nullish resp = true \/ nullish (read_prop resp (js "choices")) = true.
Proof.
  unfold first_choice_content, get_prop. destruct (nullish resp); [tauto|].
  cbn [bind]. destruct (read_prop resp (js "choices")) as [| | | |k|items|fields];
    cbn; split; try tauto; try discriminate; intros [H|H]; discriminate H.
Qed.

Lemma summary_by_content resp c :
  first_choice_content resp = Normal c ->
  summary resp
  = if not_text c then Throw TypeError
    else Normal (or_else (match c with VStr s => VStr (trim s) | _ => VUndefined end)
                         (VStr no_summary)).
Proof. intros H. unfold summary. rewrite H. destruct c; reflexivity. Qed.

(** X12: when the completion call resolves for an accepted text, the handler
    answers 500 exactly when the answer is [null] or [undefined], or has no
    [choices], or the first choice's message content is something other than
    a string, [null] or [undefined]; an answer with an empty [choices] array
    is readable and gets a 200 with the fallback summary. *)
Theorem unreadable_completion_iff_500 env s resp :
  s <> [] ->
  Z.of_nat (length s) <= max_text_length ->
  completion_api env (completion_request_of s) = Resolved resp ->
  (responses (summarize_handler env (TextString s))
   = [ error_reply 500 summarize_error_message ]
   <-> nullish resp = true
       \/ nullish (read_prop resp (js "choices")) = true
       \/ exists c, first_choice_content resp = Normal c /\ not_text c = true)
  /\ (nullish resp = false -> read_prop resp (js "choices") = VArr [] ->
      responses (summarize_handler env (TextString s))
      = [ json_reply 200 (js "summary") (VStr no_summary) ]).
Proof.
  intros Hs Hlen H. rewrite (summarize_handler_accepts _ _ Hs Hlen), H. split.
  - destruct (first_choice_content resp) as [c|e] eqn:Hc.
    + rewrite (summary_by_content _ _ Hc). destruct (not_text c) eqn:Hn.
      * split; [intros _; right; right; eauto|reflexivity].
      * split; [|].
        -- destruct c; try discriminate Hn; cbn; discriminate.
        -- intros [Hx|[Hx|[c' [Hc' Hn']]]].
           ++ assert (Ht : first_choice_content resp = Throw TypeError)
                by (apply first_choice_content_throws; auto).
              rewrite Ht in Hc. discriminate Hc.
           ++ assert (Ht : first_choice_content resp = Throw TypeError)
                by (apply first_choice_content_throws; auto).
              rewrite Ht in Hc. discriminate Hc.
           ++ injection Hc' as <-. rewrite Hn in Hn'. discriminate Hn'.
    + unfold summary. rewrite Hc. split; [|reflexivity]. intros _.
      assert (He : e = TypeError).
      { unfold first_choice_content, get_prop in Hc. destruct (nullish resp);
          [injection Hc as <-; reflexivity|].
        cbn [bind] in Hc. destruct (read_prop resp (js "choices")); cbn in Hc;
          try discriminate Hc; injection Hc as <-; reflexivity. }
      subst e. apply first_choice_content_throws in Hc. tauto.
  - intros Hn Hch. unfold summary, first_choice_content, get_prop.
    rewrite Hn. cbn [bind]. rewrite Hch. reflexivity.
Qed.

Lemma unreadable_completion_iff_500_witness :
  responses (summarize_handler
               (sample_environment (Rejected timeout_error)
                                   (Resolved (VObj [ (js "choices", VArr []) ])))
               (TextString (js "texto")))
  = [ json_reply 200 (js "summary") (VStr no_summary) ].
Proof.
  refine (proj2 (unreadable_completion_iff_500
                   (sample_environment (Rejected timeout_error)
                                       (Resolved (VObj [ (js "choices", VArr []) ])))
                   (js "texto") (VObj [ (js "choices", VArr []) ]) _ _ eq_refl)
                eq_refl eq_refl); by_evaluation.
Defined.
